(** * A model of the valuation logic of [src/streamlit_app.py]

    The Python program works on [float]s; here they are modelled as Rocq
    reals [R]: rounding, overflow and infinities are not modelled.  Python's
    [float ** float] can leave the reals (a negative base with a
    non-integral exponent gives a [complex]); such a value is kept as the
    opaque [Cx], whose arithmetic only remembers that it is complex.
    Python exceptions are the [Err] outcomes of a small error monad. *)

From Stdlib Require Import Reals Lra Lia ZArith List.
Import ListNotations.
Open Scope R_scope.

(** ** Python values and exceptions *)

(** A Python number: a [float] (or [int]) modelled as a real, or a
    [complex] whose value the model does not track. *)
Inductive num : Type :=
| Re (r : R)
| Cx.

(** The exceptions the valuation code can raise. *)
Inductive exc : Type :=
| ZeroDivisionError
| IndexError.

Inductive res (A : Type) : Type :=
| Ok (a : A)
| Err (e : exc).
Arguments Ok {A} a.
Arguments Err {A} e.

Definition bind {A B : Type} (m : res A) (k : A -> res B) : res B :=
  match m with
  | Ok a => k a
  | Err e => Err e
  end.

Notation "x <- m ;; k" := (bind m (fun x => k))
  (at level 61, m at next level, right associativity).

(** [a + b] *)
Definition py_add (a b : num) : num :=
  match a, b with
  | Re x, Re y => Re (x + y)
  | _, _ => Cx
  end.

(** [a * b] *)
Definition py_mul (a b : num) : num :=
  match a, b with
  | Re x, Re y => Re (x * y)
  | _, _ => Cx
  end.

(** [a / b]: a zero [float] divisor raises [ZeroDivisionError] (also for
    [0.0 / 0.0] and for a complex dividend).  The complex divisors of this
    program are powers of a negative base, which are never zero. *)
Definition py_div (a b : num) : res num :=
  match b with
  | Re y =>
      if Req_EM_T y 0 then Err ZeroDivisionError
      else match a with
           | Re x => Ok (Re (x / y))
           | Cx => Ok Cx
           end
  | Cx => Ok Cx
  end.

(** [x ** y] for floats [x], [y] (CPython's [float_pow]): [y == 0] gives
    [1.0]; a positive base gives [exp (y * ln x)]; a zero base raises
    [ZeroDivisionError] for a negative exponent and gives [0.0] otherwise;
    a negative base gives a float for an integral exponent and a
    [complex] otherwise.  [y] is integral iff [up y = y + 1]. *)
Definition py_pow (x y : R) : res num :=
  if Req_EM_T y 0 then Ok (Re 1)
  else if Rlt_dec 0 x then Ok (Re (Rpower x y))
  else if Req_EM_T x 0 then
    (if Rlt_dec y 0 then Err ZeroDivisionError else Ok (Re 0))
  else if Req_EM_T (IZR (up y)) (y + 1) then Ok (Re (powerRZ x (up y - 1)))
  else Ok Cx.

(** [sum(xs)]: starts from the integer [0] and adds left to right. *)
Definition py_sum (xs : list num) : num := fold_left py_add xs (Re 0).

(** [xs[-1]] *)
Definition py_last {A : Type} (xs : list A) : res A :=
  match rev xs with
  | [] => Err IndexError
  | x :: _ => Ok x
  end.

(** [range(a, b)] *)
Definition py_range (a b : Z) : list Z :=
  map (fun i => (a + Z.of_nat i)%Z) (seq 0 (Z.to_nat (b - a))).

(** [max(a, b)]: the first argument unless the second is larger. *)
Definition py_max (a b : R) : R := if Rlt_dec a b then b else a.

(** ** [two_stage_valuation] (lines 20-49) *)

(** The loop of lines 35-40, over the remaining values [ns] of [n], with
    the lists [fcfs] and [pv_fcfs] built so far. *)
Fixpoint stage1_loop (fcf1 g1 wacc : R) (ns : list Z)
    (fcfs pv_fcfs : list num) : res (list num * list num) :=
  match ns with
  | [] => Ok (fcfs, pv_fcfs)
  | n :: ns' =>
      p <- py_pow (1 + g1) (IZR (n - 1)) ;;
      let fcf_n := py_mul (Re fcf1) p in
      d <- py_pow (1 + wacc) (IZR n - / 2) ;;
      pv_n <- py_div fcf_n d ;;
      stage1_loop fcf1 g1 wacc ns' (fcfs ++ [fcf_n]) (pv_fcfs ++ [pv_n])
  end.

(** Returns [(ev, fcfs, pv_fcfs, pv_tv)]. *)
Definition two_stage_valuation (fcf1 g1 : R) (years1 : Z) (g2 wacc : R)
    : res (num * list num * list num * num) :=
  lists <- stage1_loop fcf1 g1 wacc (py_range 1 (years1 + 1)) [] [] ;;
  let (fcfs, pv_fcfs) := lists in
  last_fcf <- py_last fcfs ;;
  let fcf_last := py_mul last_fcf (Re (1 + g1)) in
  tv <- py_div (py_mul fcf_last (Re (1 + g2))) (Re (wacc - g2)) ;;
  d <- py_pow (1 + wacc) (IZR years1 - / 2) ;;
  pv_tv <- py_div tv d ;;
  let ev := py_add (py_sum pv_fcfs) pv_tv in
  Ok (ev, fcfs, pv_fcfs, pv_tv).

(** ** Sidebar arithmetic (lines 62 and 71) *)

Definition share_value (valuation_input equity_pct : R) : R :=
  valuation_input * equity_pct / 100.

Definition balance_due (agreed_price amount_paid : R) : R :=
  py_max (agreed_price - amount_paid) 0.

(** ** The illustrative series [val_series] (lines 120-127)

    Each entry is [(n, ev_curr)]; the source stores the year as the
    decimal string [f"{n}"], modelled here by the integer [n]. *)
Fixpoint val_loop (years1 : Z) (g1_pct g2_pct : R) (ns : list Z)
    (ev_curr : R) (val_series : list (Z * R)) : list (Z * R) :=
  match ns with
  | [] => val_series
  | n :: ns' =>
      let ev_next :=
        if Z.leb n years1 then ev_curr * (1 + g1_pct / 100)
        else ev_curr * (1 + g2_pct / 100) in
      val_loop years1 g1_pct g2_pct ns' ev_next (val_series ++ [(n, ev_next)])
  end.

Definition val_series (valuation_input g1_pct : R) (years1 : Z) (g2_pct : R)
    : list (Z * R) :=
  val_loop years1 g1_pct g2_pct (py_range 1 (years1 + 6)) valuation_input [].

(** ** Closed forms of the loop values *)

(** [fcf_n] of year [n] *)
Definition fcf_at (fcf1 g1 : R) (n : Z) : R :=
  fcf1 * (1 + g1) ^ Z.to_nat (n - 1).

(** [pv_n] of year [n] for a positive base [1 + wacc] *)
Definition pv_at (fcf1 g1 wacc : R) (n : Z) : R :=
  fcf_at fcf1 g1 n / Rpower (1 + wacc) (IZR n - / 2).

(** The [k]-th value of [ev_curr] in [val_series]: [valuation_input]
    compounded at the growth rate of each year [1 .. k]. *)
Fixpoint val_at (valuation_input g1_pct g2_pct : R) (years1 : Z) (k : nat) : R :=
  match k with
  | O => valuation_input
  | S k' =>
      if Z.leb (1 + Z.of_nat k') years1
      then val_at valuation_input g1_pct g2_pct years1 k' * (1 + g1_pct / 100)
      else val_at valuation_input g1_pct g2_pct years1 k' * (1 + g2_pct / 100)
  end.

(** The discounted terminal value [pv_tv] for a positive base [1 + wacc]. *)
Definition tv_pv_at (fcf1 g1 g2 wacc : R) (years1 : Z) : R :=
  fcf_at fcf1 g1 years1 * (1 + g1) * (1 + g2) / (wacc - g2)
    / Rpower (1 + wacc) (IZR years1 - / 2).

(** A real sum over a list of years. *)
Definition sum_over (f : Z -> R) (ns : list Z) : R :=
  fold_right (fun n acc => f n + acc) 0 ns.

(** ** The script around the engine *)

(** The call of lines 95-101: the sliders give percentages, which are
    divided by 100 before they reach [two_stage_valuation]. *)
Definition app_valuation (fcf1 g1_pct : R) (years1 : Z) (g2_pct wacc_pct : R)
    : res (num * list num * list num * num) :=
  two_stage_valuation fcf1 (g1_pct / 100) years1 (g2_pct / 100) (wacc_pct / 100).

(** The bounds of the widgets of lines 74-80 ([number_input] with
    [min_value=0.0], and the four sliders). *)
Definition ui_bounds (fcf1 g1_pct : R) (years1 : Z) (g2_pct wacc_pct : R) : Prop :=
  0 <= fcf1 /\ (0 <= g1_pct <= 30) /\ (1 <= years1 <= 10)%Z /\ (0 <= g2_pct <= 10) /\ (5 <= wacc_pct <= 25).

(** [projection_df] (lines 108-112): a [pandas.DataFrame] built from the
    columns ["Ano"] (the labels [f"t+{i}"], modelled by [i]), ["FCL
    projetado"] and ["VP (mid-year)"]; columns of different lengths make
    pandas raise [ValueError], modelled by [None].  A row is
    [(i, fcf, pv)]. *)
Definition projection_df (years1 : Z) (fcfs pv_fcfs : list num)
    : option (list (Z * num * num)) :=
  let ano := py_range 1 (years1 + 1) in
  if (Nat.eqb (length ano) (length fcfs) && Nat.eqb (length fcfs) (length pv_fcfs))%bool
  then Some (combine (combine ano fcfs) pv_fcfs)
  else None.

(** [chart_df = pd.DataFrame(val_series).set_index("Ano")] (line 129): an
    empty [val_series] gives a frame without the column ["Ano"], and
    [set_index] raises [KeyError], modelled by [None]. *)
Definition chart_df (vs : list (Z * R)) : option (list (Z * R)) :=
  match vs with
  | [] => None
  | _ => Some vs
  end.

(** [chart_df.empty] (line 131) *)
Definition df_empty {A : Type} (df : list A) : bool :=
  match df with
  | [] => true
  | _ => false
  end.

(** ** Python primitives *)

Lemma half_offset_nonzero (n : Z) : IZR n - / 2 <> 0.
Proof.
  intro H.
  assert (H2 : IZR (2 * n) = IZR 1) by (rewrite mult_IZR; lra).
  apply eq_IZR in H2; lia.
Qed.

Lemma half_offset_not_integral (n : Z) :
  IZR (up (IZR n - / 2)) <> IZR n - / 2 + 1.
Proof.
  intro H.
  assert (H2 : IZR (2 * up (IZR n - / 2)) = IZR (2 * n + 1))
    by (rewrite plus_IZR, !mult_IZR; lra).
  apply eq_IZR in H2; lia.
Qed.

Lemma Rpower_pos (x y : R) : 0 < Rpower x y.
Proof. unfold Rpower; apply exp_pos. Qed.

Lemma py_div_nonzero (x y : R) : y <> 0 -> py_div (Re x) (Re y) = Ok (Re (x / y)).
Proof. intro Hy; unfold py_div; destruct (Req_EM_T y 0); [contradiction | reflexivity]. Qed.

Lemma py_div_zero (a : num) : py_div a (Re 0) = Err ZeroDivisionError.
Proof. unfold py_div; destruct (Req_EM_T 0 0); [reflexivity | contradiction]. Qed.

Lemma powerRZ_nonneg (x : R) (k : Z) : (0 <= k)%Z -> powerRZ x k = x ^ Z.to_nat k.
Proof.
  intro Hk; destruct k as [|p|p]; [reflexivity | | lia].
  reflexivity.
Qed.

(** [x ** k] with an integral exponent [k >= 0] is always the float [x ^ k]. *)
Lemma py_pow_int (x : R) (k : Z) :
  (0 <= k)%Z -> py_pow x (IZR k) = Ok (Re (x ^ Z.to_nat k)).
Proof.
  intro Hk; unfold py_pow.
  destruct (Req_EM_T (IZR k) 0) as [H0|H0].
  { apply eq_IZR_R0 in H0; subst; reflexivity. }
  assert (Hk' : (0 < k)%Z) by (destruct (Z.eq_dec k 0); [subst; contradiction | lia]).
  destruct (Rlt_dec 0 x) as [Hx|Hx].
  { rewrite <- (Z2Nat.id k) at 1 by lia.
    rewrite <- INR_IZR_INZ, Rpower_pow by exact Hx; reflexivity. }
  destruct (Req_EM_T x 0) as [Hx0|Hx0].
  { destruct (Rlt_dec (IZR k) 0) as [Hn|Hn].
    - apply lt_IZR in Hn; lia.
    - subst; rewrite pow_i by lia; reflexivity. }
  assert (Hup : (k + 1)%Z = up (IZR k))
    by (apply tech_up; rewrite plus_IZR; simpl; lra).
  rewrite <- Hup.
  destruct (Req_EM_T (IZR (k + 1)) (IZR k + 1)) as [_|Hne].
  - replace (k + 1 - 1)%Z with k by lia.
    rewrite powerRZ_nonneg by lia; reflexivity.
  - exfalso; apply Hne; rewrite plus_IZR; reflexivity.
Qed.

Lemma py_pow_half_pos (x : R) (n : Z) :
  0 < x -> py_pow x (IZR n - / 2) = Ok (Re (Rpower x (IZR n - / 2))).
Proof.
  intro Hx; unfold py_pow.
  destruct (Req_EM_T (IZR n - / 2) 0) as [H|_].
  { exfalso; exact (half_offset_nonzero n H). }
  destruct (Rlt_dec 0 x); [reflexivity | contradiction].
Qed.

Lemma py_pow_half_zero (n : Z) :
  (1 <= n)%Z -> py_pow 0 (IZR n - / 2) = Ok (Re 0).
Proof.
  intro Hn; unfold py_pow.
  destruct (Req_EM_T (IZR n - / 2) 0) as [H|_].
  { exfalso; exact (half_offset_nonzero n H). }
  destruct (Rlt_dec 0 0) as [H|_]; [lra|].
  destruct (Req_EM_T 0 0) as [_|H]; [|contradiction].
  destruct (Rlt_dec (IZR n - / 2) 0) as [H|_]; [|reflexivity].
  apply IZR_le in Hn; lra.
Qed.

Lemma py_pow_half_neg (x : R) (n : Z) :
  x < 0 -> py_pow x (IZR n - / 2) = Ok Cx.
Proof.
  intro Hx; unfold py_pow.
  destruct (Req_EM_T (IZR n - / 2) 0) as [H|_].
  { exfalso; exact (half_offset_nonzero n H). }
  destruct (Rlt_dec 0 x) as [H|_]; [lra|].
  destruct (Req_EM_T x 0) as [H|_]; [lra|].
  destruct (Req_EM_T (IZR (up (IZR n - / 2))) (IZR n - / 2 + 1)) as [H|_];
    [exfalso; exact (half_offset_not_integral n H) | reflexivity].
Qed.

(** For [n >= 1], [x ** (n - 0.5)] never raises. *)
Lemma py_pow_half_ok (x : R) (n : Z) :
  (1 <= n)%Z -> exists v, py_pow x (IZR n - / 2) = Ok v.
Proof.
  intro Hn; destruct (Rtotal_order x 0) as [Hx|[Hx|Hx]].
  - eexists; apply py_pow_half_neg; exact Hx.
  - subst; eexists; apply py_pow_half_zero; exact Hn.
  - eexists; apply py_pow_half_pos; exact Hx.
Qed.

Lemma py_last_snoc {A : Type} (l : list A) (x : A) : py_last (l ++ [x]) = Ok x.
Proof. unfold py_last; rewrite rev_unit; reflexivity. Qed.

Lemma py_last_nil {A : Type} : py_last (@nil A) = Err IndexError.
Proof. reflexivity. Qed.

(** ** [range] *)

Lemma py_range_length (a b : Z) : length (py_range a b) = Z.to_nat (b - a).
Proof. unfold py_range; rewrite length_map, length_seq; reflexivity. Qed.

Lemma py_range_nth (a b : Z) (i : nat) (d : Z) :
  (i < Z.to_nat (b - a))%nat -> nth i (py_range a b) d = (a + Z.of_nat i)%Z.
Proof.
  intro Hi; unfold py_range.
  rewrite (nth_indep _ d (a + Z.of_nat 0)%Z)
    by (rewrite length_map, length_seq; exact Hi).
  rewrite (map_nth (fun j => (a + Z.of_nat j)%Z) (seq 0 (Z.to_nat (b - a))) 0%nat i).
  rewrite seq_nth by exact Hi; reflexivity.
Qed.

Lemma py_range_ge (a b : Z) : Forall (fun n => (a <= n)%Z) (py_range a b).
Proof.
  unfold py_range; apply Forall_forall; intros n Hn.
  apply in_map_iff in Hn as [i [<- _]]; lia.
Qed.

Lemma py_range_snoc (k : Z) :
  (1 <= k)%Z -> py_range 1 (k + 1) = py_range 1 k ++ [k].
Proof.
  intro Hk; unfold py_range.
  replace (Z.to_nat (k + 1 - 1)) with (S (Z.to_nat (k - 1))) by lia.
  rewrite seq_S, map_app; f_equal; cbn [map].
  f_equal; lia.
Qed.

Lemma py_range_empty (k : Z) : (k <= 0)%Z -> py_range 1 (k + 1) = [].
Proof.
  intro Hk; unfold py_range.
  replace (Z.to_nat (k + 1 - 1)) with 0%nat by lia; reflexivity.
Qed.

(** ** The stage-1 loop *)

Lemma py_div_err (a b : num) (e : exc) : py_div a b = Err e -> e = ZeroDivisionError.
Proof.
  unfold py_div; destruct b as [y|]; [|discriminate].
  destruct (Req_EM_T y 0); [congruence|]; destruct a; discriminate.
Qed.

(** Whatever [wacc] is, the loop either raises [ZeroDivisionError] or
    appends the projected cash flows of all its years to [fcfs]. *)
Lemma stage1_loop_shape (fcf1 g1 wacc : R) (ns : list Z) (fcfs pvs : list num) :
  Forall (fun n => (1 <= n)%Z) ns ->
  stage1_loop fcf1 g1 wacc ns fcfs pvs = Err ZeroDivisionError \/
  exists pvs', stage1_loop fcf1 g1 wacc ns fcfs pvs =
    Ok (fcfs ++ map (fun n => Re (fcf_at fcf1 g1 n)) ns, pvs').
Proof.
  revert fcfs pvs; induction ns as [|n ns IH]; intros fcfs pvs Hns.
  - right; exists pvs; simpl; rewrite app_nil_r; reflexivity.
  - inversion Hns as [|? ? Hn Hns']; subst.
    cbn [stage1_loop]; rewrite py_pow_int by lia; cbn [bind py_mul].
    destruct (py_pow_half_ok (1 + wacc) n Hn) as [d Hd]; rewrite Hd; cbn [bind].
    destruct (py_div (Re (fcf1 * (1 + g1) ^ Z.to_nat (n - 1))) d) as [pv|e] eqn:Hdiv;
      cbn [bind].
    + destruct (IH (fcfs ++ [Re (fcf1 * (1 + g1) ^ Z.to_nat (n - 1))]) (pvs ++ [pv]) Hns')
        as [H|[pvs' H]].
      * left; exact H.
      * right; exists pvs'; rewrite H, <- app_assoc; reflexivity.
    + apply py_div_err in Hdiv; subst; left; reflexivity.
Qed.

(** With a positive base [1 + wacc] the loop computes the closed forms. *)
Lemma stage1_loop_closed (fcf1 g1 wacc : R) (ns : list Z) (fcfs pvs : list num) :
  0 < 1 + wacc ->
  Forall (fun n => (1 <= n)%Z) ns ->
  stage1_loop fcf1 g1 wacc ns fcfs pvs =
    Ok (fcfs ++ map (fun n => Re (fcf_at fcf1 g1 n)) ns,
        pvs ++ map (fun n => Re (pv_at fcf1 g1 wacc n)) ns).
Proof.
  intro Hw; revert fcfs pvs; induction ns as [|n ns IH]; intros fcfs pvs Hns.
  - simpl; rewrite !app_nil_r; reflexivity.
  - inversion Hns as [|? ? Hn Hns']; subst.
    cbn [stage1_loop]; rewrite py_pow_int by lia; cbn [bind py_mul].
    rewrite py_pow_half_pos by exact Hw; cbn [bind].
    rewrite py_div_nonzero by (apply Rgt_not_eq, Rpower_pos); cbn [bind].
    rewrite IH by exact Hns'; rewrite <- !app_assoc; reflexivity.
Qed.

(** ** [two_stage_valuation] in closed form *)

Lemma last_fcf_of_range (fcf1 g1 : R) (years1 : Z) :
  (1 <= years1)%Z ->
  py_last (map (fun n => Re (fcf_at fcf1 g1 n)) (py_range 1 (years1 + 1))) =
    Ok (Re (fcf_at fcf1 g1 years1)).
Proof.
  intro Hy; rewrite py_range_snoc, map_app by exact Hy.
  apply py_last_snoc.
Qed.

Lemma tsv_closed (fcf1 g1 : R) (years1 : Z) (g2 wacc : R) :
  (1 <= years1)%Z -> 0 < 1 + wacc -> wacc <> g2 ->
  two_stage_valuation fcf1 g1 years1 g2 wacc =
    Ok (py_add (py_sum (map (fun n => Re (pv_at fcf1 g1 wacc n))
                           (py_range 1 (years1 + 1))))
               (Re (fcf_at fcf1 g1 years1 * (1 + g1) * (1 + g2) / (wacc - g2)
                    / Rpower (1 + wacc) (IZR years1 - / 2))),
        map (fun n => Re (fcf_at fcf1 g1 n)) (py_range 1 (years1 + 1)),
        map (fun n => Re (pv_at fcf1 g1 wacc n)) (py_range 1 (years1 + 1)),
        Re (fcf_at fcf1 g1 years1 * (1 + g1) * (1 + g2) / (wacc - g2)
            / Rpower (1 + wacc) (IZR years1 - / 2))).
Proof.
  intros Hy Hw Hne; unfold two_stage_valuation.
  rewrite stage1_loop_closed by (exact Hw || apply py_range_ge); cbn [bind app].
  rewrite last_fcf_of_range by exact Hy; cbn [bind py_mul].
  rewrite py_div_nonzero by (intro H; apply Hne; lra); cbn [bind].
  rewrite py_pow_half_pos by exact Hw; cbn [bind].
  rewrite py_div_nonzero by (apply Rgt_not_eq, Rpower_pos).
  reflexivity.
Qed.

(** [range(1, years1 + 1)] is empty for [years1 <= 0]: [fcfs[-1]] raises. *)
Lemma tsv_index_error (fcf1 g1 : R) (years1 : Z) (g2 wacc : R) :
  (years1 <= 0)%Z -> two_stage_valuation fcf1 g1 years1 g2 wacc = Err IndexError.
Proof.
  intro Hy; unfold two_stage_valuation; rewrite py_range_empty by exact Hy.
  reflexivity.
Qed.

(** With [wacc == g2] the terminal-value division (or an earlier one)
    raises [ZeroDivisionError]. *)
Lemma tsv_zero_division (fcf1 g1 : R) (years1 : Z) (g2 wacc : R) :
  (1 <= years1)%Z -> wacc = g2 ->
  two_stage_valuation fcf1 g1 years1 g2 wacc = Err ZeroDivisionError.
Proof.
  intros Hy Heq; unfold two_stage_valuation.
  destruct (stage1_loop_shape fcf1 g1 wacc (py_range 1 (years1 + 1)) [] []
              (py_range_ge 1 (years1 + 1))) as [H|[pvs H]];
    rewrite H; cbn [bind app]; [reflexivity|].
  rewrite last_fcf_of_range by exact Hy; cbn [bind py_mul].
  replace (wacc - g2) with 0 by lra.
  rewrite py_div_zero; reflexivity.
Qed.

(** When the function returns, [fcfs] holds the closed-form cash flows. *)
Lemma tsv_fcfs (fcf1 g1 : R) (years1 : Z) (g2 wacc : R) ev fcfs pvs pv_tv :
  two_stage_valuation fcf1 g1 years1 g2 wacc = Ok (ev, fcfs, pvs, pv_tv) ->
  fcfs = map (fun n => Re (fcf_at fcf1 g1 n)) (py_range 1 (years1 + 1)).
Proof.
  unfold two_stage_valuation.
  destruct (stage1_loop_shape fcf1 g1 wacc (py_range 1 (years1 + 1)) [] []
              (py_range_ge 1 (years1 + 1))) as [H|[pvs' H]];
    rewrite H; cbn [bind app]; [discriminate|].
  destruct (py_last _); cbn [bind]; [|discriminate].
  destruct (py_div _ _); cbn [bind]; [|discriminate].
  destruct (py_pow _ _); cbn [bind]; [|discriminate].
  destruct (py_div _ _); cbn [bind]; [|discriminate].
  intro E; injection E; intros; subst; reflexivity.
Qed.

(** Every exception [py_pow] raises is a [ZeroDivisionError]. *)
Lemma py_pow_err (x y : R) (e : exc) : py_pow x y = Err e -> e = ZeroDivisionError.
Proof.
  unfold py_pow.
  destruct (Req_EM_T y 0); [discriminate|].
  destruct (Rlt_dec 0 x); [discriminate|].
  destruct (Req_EM_T x 0).
  - destruct (Rlt_dec y 0); congruence.
  - destruct (Req_EM_T (IZR (up y)) (y + 1)); discriminate.
Qed.

(** For [years1 >= 1] the only exception is [ZeroDivisionError]. *)
Lemma tsv_no_index_error (fcf1 g1 : R) (years1 : Z) (g2 wacc : R) :
  (1 <= years1)%Z -> two_stage_valuation fcf1 g1 years1 g2 wacc <> Err IndexError.
Proof.
  intro Hy; unfold two_stage_valuation.
  destruct (stage1_loop_shape fcf1 g1 wacc (py_range 1 (years1 + 1)) [] []
              (py_range_ge 1 (years1 + 1))) as [H|[pvs H]];
    rewrite H; cbn [bind app]; [congruence|].
  rewrite last_fcf_of_range by exact Hy; cbn [bind py_mul].
  destruct (py_div _ _) as [tv|e] eqn:E1; cbn [bind];
    [|apply py_div_err in E1; subst; congruence].
  destruct (py_pow _ _) as [d|e] eqn:E2; cbn [bind];
    [|apply py_pow_err in E2; subst; congruence].
  destruct (py_div tv d) as [pv|e] eqn:E3; cbn [bind];
    [congruence|apply py_div_err in E3; subst; congruence].
Qed.

Lemma nth_map_range {A : Type} (f : Z -> A) (k : Z) (i : nat) (d : A) :
  (i < Z.to_nat k)%nat ->
  nth i (map f (py_range 1 (k + 1))) d = f (1 + Z.of_nat i)%Z.
Proof.
  intro Hi.
  assert (Hi' : (i < Z.to_nat (k + 1 - 1))%nat) by (replace (k + 1 - 1)%Z with k by lia; exact Hi).
  rewrite (nth_indep _ d (f 0%Z)) by (rewrite length_map, py_range_length; exact Hi').
  rewrite map_nth, py_range_nth by exact Hi'; reflexivity.
Qed.

Lemma length_map_range {A : Type} (f : Z -> A) (k : Z) :
  length (map f (py_range 1 (k + 1))) = Z.to_nat k.
Proof. rewrite length_map, py_range_length; f_equal; lia. Qed.

(** The terminal value is negative when [wacc < g2] and the last cash flow
    and both growth factors are positive. *)
Lemma terminal_pv_negative (fcf1 g1 : R) (years1 : Z) (g2 wacc : R) :
  wacc < g2 -> 0 < fcf1 -> 0 < 1 + g1 -> 0 < 1 + g2 ->
  fcf_at fcf1 g1 years1 * (1 + g1) * (1 + g2) / (wacc - g2)
    / Rpower (1 + wacc) (IZR years1 - / 2) < 0.
Proof.
  intros Hlt Hf Hg1 Hg2.
  apply Rdiv_neg_pos; [|apply Rpower_pos].
  assert (Ha : 0 < fcf_at fcf1 g1 years1 * (1 + g1) * (1 + g2)).
  { unfold fcf_at; apply Rmult_lt_0_compat; [apply Rmult_lt_0_compat|]; try lra.
    apply Rmult_lt_0_compat; [lra | apply pow_lt; lra]. }
  assert (Hq : 0 < fcf_at fcf1 g1 years1 * (1 + g1) * (1 + g2) / (g2 - wacc))
    by (apply Rdiv_lt_0_compat; lra).
  replace (fcf_at fcf1 g1 years1 * (1 + g1) * (1 + g2) / (wacc - g2))
    with (- (fcf_at fcf1 g1 years1 * (1 + g1) * (1 + g2) / (g2 - wacc)))
    by (field; lra).
  lra.
Qed.

(** * The claims *)

(** ** C1 *)

(** C1 (as amended): [two_stage_valuation] has no divergence guard.  With
    [wacc == g2] it raises [ZeroDivisionError] when [years1 >= 1] (and
    [IndexError] otherwise); with [wacc < g2] (and [years1 >= 1],
    [1 + wacc > 0]) it returns normally, for every [fcf1], [g1] and [g2],
    and the discounted terminal value is negative when [fcf1], [1 + g1] and
    [1 + g2] are positive. *)
Theorem divergence_unguarded (fcf1 g1 : R) (years1 : Z) (g2 wacc : R) :
  (wacc = g2 ->
   two_stage_valuation fcf1 g1 years1 g2 wacc =
     Err (if Z.leb 1 years1 then ZeroDivisionError else IndexError)) /\
  ((1 <= years1)%Z -> 0 < 1 + wacc -> wacc < g2 ->
   exists ev fcfs pvs x,
     two_stage_valuation fcf1 g1 years1 g2 wacc = Ok (ev, fcfs, pvs, Re x) /\
     (0 < fcf1 -> 0 < 1 + g1 -> 0 < 1 + g2 -> x < 0)).
Proof.
  split.
  - intro Heq; destruct (Z.leb_spec 1 years1) as [Hy|Hy].
    + apply tsv_zero_division; assumption.
    + apply tsv_index_error; lia.
  - intros Hy Hw Hlt.
    rewrite tsv_closed by (exact Hy || exact Hw || (intro; lra)).
    do 4 eexists; split; [reflexivity|].
    intros Hf Hg1 Hg2; apply terminal_pv_negative; assumption.
Qed.

Lemma divergence_unguarded_witness :
  two_stage_valuation 1 0 1 (/ 10) (/ 10) = Err ZeroDivisionError /\
  (exists ev fcfs pvs x,
    two_stage_valuation 1 0 1 (/ 5) (/ 10) = Ok (ev, fcfs, pvs, Re x) /\ x < 0) /\
  (exists ev fcfs pvs x,
    two_stage_valuation 0 0 1 (/ 5) (/ 10) = Ok (ev, fcfs, pvs, Re x)).
Proof.
  split; [|split].
  - apply (proj1 (divergence_unguarded 1 0 1 (/ 10) (/ 10))); reflexivity.
  - destruct (proj2 (divergence_unguarded 1 0 1 (/ 5) (/ 10)) ltac:(lia) ltac:(lra) ltac:(lra))
      as [ev [fcfs [pvs [x [H Hx]]]]].
    exists ev, fcfs, pvs, x; split; [exact H | apply Hx; lra].
  - destruct (proj2 (divergence_unguarded 0 0 1 (/ 5) (/ 10)) ltac:(lia) ltac:(lra) ltac:(lra))
      as [ev [fcfs [pvs [x [H _]]]]].
    exists ev, fcfs, pvs, x; exact H.
Defined.

(** C1 is refuted: with [discountRate == terminalGrowth] the function raises
    Python's [ZeroDivisionError] (there is no [DivergentTerminalValue]
    error), and with [discountRate < terminalGrowth] it does not fail at all
    but returns a negative discounted terminal value. *)
Lemma divergence_not_detected :
  two_stage_valuation 1 0 1 (/ 10) (/ 10) = Err ZeroDivisionError /\
  / 10 < / 5 /\
  exists ev fcfs pvs x,
    two_stage_valuation 1 0 1 (/ 5) (/ 10) = Ok (ev, fcfs, pvs, Re x) /\ x < 0.
Proof.
  split; [apply tsv_zero_division; [lia | reflexivity]|].
  split; [lra|].
  rewrite tsv_closed by (lia || lra || (intro; lra)).
  do 4 eexists; split; [reflexivity|].
  apply terminal_pv_negative; lra.
Qed.

(** ** C5 *)

(** C5 (as amended): [two_stage_valuation] does not re-validate its input.
    With [years1 < 1] it raises [IndexError] at [fcfs[-1]]; with
    [years1 >= 1] and [1 + wacc > 0] it returns a result for every [fcf1]
    (negative ones included) and every [wacc <> g2], [wacc < g2] included;
    with [wacc == g2] and [years1 >= 1] it raises [ZeroDivisionError]. *)
Theorem input_not_revalidated (fcf1 g1 : R) (years1 : Z) (g2 wacc : R) :
  ((years1 <= 0)%Z ->
   two_stage_valuation fcf1 g1 years1 g2 wacc = Err IndexError) /\
  ((1 <= years1)%Z -> 0 < 1 + wacc -> wacc <> g2 ->
   exists r, two_stage_valuation fcf1 g1 years1 g2 wacc = Ok r) /\
  ((1 <= years1)%Z -> wacc = g2 ->
   two_stage_valuation fcf1 g1 years1 g2 wacc = Err ZeroDivisionError).
Proof.
  split; [|split].
  - apply tsv_index_error.
  - intros Hy Hw Hne; eexists; apply tsv_closed; assumption.
  - apply tsv_zero_division.
Qed.

Lemma input_not_revalidated_witness :
  two_stage_valuation 1 0 0 0 (/ 10) = Err IndexError /\
  (exists r, two_stage_valuation (-1) 0 1 (/ 5) (/ 10) = Ok r) /\
  two_stage_valuation 1 0 1 (/ 10) (/ 10) = Err ZeroDivisionError.
Proof.
  split; [|split].
  - apply (proj1 (input_not_revalidated 1 0 0 0 (/ 10))); lia.
  - apply (proj1 (proj2 (input_not_revalidated (-1) 0 1 (/ 5) (/ 10))));
      [lia | lra | intro; lra].
  - apply (proj2 (proj2 (input_not_revalidated 1 0 1 (/ 10) (/ 10)))); [lia | reflexivity].
Defined.

(** C5 is refuted: a negative [nextYearFCF] is accepted and valued as
    usual, and [stage1Years = 0] ends in Python's [IndexError], not in a
    structured [InvalidInput] error. *)
Lemma negative_fcf_accepted :
  -1 < 0 /\
  (exists r, two_stage_valuation (-1) 0 1 0 (/ 10) = Ok r) /\
  two_stage_valuation 1 0 0 0 (/ 10) = Err IndexError.
Proof.
  split; [lra|split].
  - eexists; apply tsv_closed; [lia | lra | intro; lra].
  - apply tsv_index_error; lia.
Qed.

(** ** C10 *)

(** C10: for [years1 >= 1] the loop builds [years1] cash flows, so
    [fcfs[-1]] succeeds and no [IndexError] is raised; for [years1 <= 0]
    the loop builds empty lists and [fcfs[-1]] raises [IndexError]. *)
Theorem fcfs_last_safe_iff_years (fcf1 g1 : R) (years1 : Z) (g2 wacc : R) :
  ((1 <= years1)%Z ->
   (forall fcfs pvs,
      stage1_loop fcf1 g1 wacc (py_range 1 (years1 + 1)) [] [] = Ok (fcfs, pvs) ->
      length fcfs = Z.to_nat years1 /\ (exists x, py_last fcfs = Ok x)) /\
   two_stage_valuation fcf1 g1 years1 g2 wacc <> Err IndexError) /\
  ((years1 <= 0)%Z ->
   stage1_loop fcf1 g1 wacc (py_range 1 (years1 + 1)) [] [] = Ok ([], []) /\
   py_last (@nil num) = Err IndexError /\
   two_stage_valuation fcf1 g1 years1 g2 wacc = Err IndexError).
Proof.
  split.
  - intro Hy; split; [|apply tsv_no_index_error; exact Hy].
    intros fcfs pvs H.
    destruct (stage1_loop_shape fcf1 g1 wacc (py_range 1 (years1 + 1)) [] []
                (py_range_ge 1 (years1 + 1))) as [H'|[pvs' H']];
      rewrite H' in H; [discriminate|].
    injection H as <- _; simpl app.
    split; [apply length_map_range|].
    eexists; apply last_fcf_of_range; exact Hy.
  - intro Hy; rewrite py_range_empty by exact Hy.
    split; [reflexivity|split; [reflexivity|]].
    apply tsv_index_error; exact Hy.
Qed.

Lemma fcfs_last_safe_iff_years_witness :
  two_stage_valuation 1 0 1 0 (/ 10) <> Err IndexError /\
  two_stage_valuation 1 0 0 0 (/ 10) = Err IndexError.
Proof.
  split.
  - apply (proj1 (fcfs_last_safe_iff_years 1 0 1 0 (/ 10))); lia.
  - apply (proj2 (fcfs_last_safe_iff_years 1 0 0 0 (/ 10))); lia.
Defined.

(** ** C4 *)

(** C4: whenever [two_stage_valuation] returns, its [ev] is Python's
    [sum(pv_fcfs) + pv_tv] over the returned [pv_fcfs] and [pv_tv]. *)
Theorem ev_is_sum_plus_terminal (fcf1 g1 : R) (years1 : Z) (g2 wacc : R) :
  match two_stage_valuation fcf1 g1 years1 g2 wacc with
  | Ok (ev, _, pv_fcfs, pv_tv) => ev = py_add (py_sum pv_fcfs) pv_tv
  | Err _ => True
  end.
Proof.
  unfold two_stage_valuation.
  destruct (stage1_loop _ _ _ _ _ _) as [[fcfs pvs]|e]; cbn [bind]; [|exact I].
  destruct (py_last fcfs) as [l|e]; cbn [bind]; [|exact I].
  destruct (py_div _ _) as [tv|e]; cbn [bind]; [|exact I].
  destruct (py_pow _ _) as [d|e]; cbn [bind]; [|exact I].
  destruct (py_div tv d) as [pv|e]; cbn [bind]; reflexivity || exact I.
Qed.

(** ** C2 *)

(** C2 (as amended): for a valid input with [1 + discountRate > 0] the
    function returns a schedule of [years1] entries with
    [fcfs[n-1] = fcf1 * (1 + g1) ^ (n - 1)] and
    [pv_fcfs[n-1] = fcfs[n-1] / (1 + wacc) ^ (n - 0.5)] for [1 <= n <= years1];
    for [years1 = 1] the schedule is [[fcf1]] and [[fcf1 / (1 + wacc) ^ 0.5]]. *)
Theorem stage1_schedule (fcf1 g1 : R) (years1 : Z) (g2 wacc : R) :
  0 <= fcf1 -> (1 <= years1)%Z -> g2 < wacc -> 0 < 1 + wacc ->
  exists ev fcfs pv_fcfs pv_tv,
    two_stage_valuation fcf1 g1 years1 g2 wacc = Ok (ev, fcfs, pv_fcfs, pv_tv) /\
    length fcfs = Z.to_nat years1 /\ length pv_fcfs = Z.to_nat years1 /\
    (forall n, (1 <= n <= years1)%Z ->
       nth (Z.to_nat (n - 1)) fcfs Cx = Re (fcf1 * (1 + g1) ^ Z.to_nat (n - 1)) /\
       nth (Z.to_nat (n - 1)) pv_fcfs Cx =
         Re (fcf1 * (1 + g1) ^ Z.to_nat (n - 1) / Rpower (1 + wacc) (IZR n - / 2))) /\
    (years1 = 1%Z ->
       fcfs = [Re fcf1] /\ pv_fcfs = [Re (fcf1 / Rpower (1 + wacc) (/ 2))]).
Proof.
  intros Hf Hy Hlt Hw.
  rewrite tsv_closed by (exact Hy || exact Hw || (intro; lra)).
  do 4 eexists; split; [reflexivity|].
  split; [apply length_map_range|].
  split; [apply length_map_range|].
  split.
  - intros n Hn.
    rewrite !nth_map_range by lia.
    replace (1 + Z.of_nat (Z.to_nat (n - 1)))%Z with n by lia.
    split; reflexivity.
  - intros ->.
    replace (py_range 1 (1 + 1)) with [1%Z] by reflexivity.
    cbn [map]; unfold pv_at, fcf_at.
    change (Z.to_nat (1 - 1)) with 0%nat.
    rewrite pow_O, Rmult_1_r.
    replace (IZR 1 - / 2) with (/ 2) by lra.
    split; reflexivity.
Qed.

Lemma stage1_schedule_witness :
  exists ev fcfs pv_fcfs pv_tv,
    two_stage_valuation 1 (/ 10) 5 (/ 50) (/ 10) = Ok (ev, fcfs, pv_fcfs, pv_tv) /\
    length fcfs = 5%nat /\ length pv_fcfs = 5%nat /\
    (forall n, (1 <= n <= 5)%Z ->
       nth (Z.to_nat (n - 1)) fcfs Cx = Re (1 * (1 + / 10) ^ Z.to_nat (n - 1)) /\
       nth (Z.to_nat (n - 1)) pv_fcfs Cx =
         Re (1 * (1 + / 10) ^ Z.to_nat (n - 1) / Rpower (1 + / 10) (IZR n - / 2))) /\
    (5%Z = 1%Z -> fcfs = [Re 1] /\ pv_fcfs = [Re (1 / Rpower (1 + / 10) (/ 2))]).
Proof.
  apply (stage1_schedule 1 (/ 10) 5 (/ 50) (/ 10)); lra || lia.
Defined.

(** C2 is refuted at [discountRate = -1] (with [terminalGrowth = -2], a
    valid input): the mid-year discount factor [0.0 ** 0.5] is [0.0] and
    the first present value raises [ZeroDivisionError]. *)
Lemma schedule_fails_at_wacc_minus_one :
  0 <= 1 /\ (1 <= 1)%Z /\ -2 < -1 /\
  two_stage_valuation 1 0 1 (-2) (-1) = Err ZeroDivisionError.
Proof.
  split; [lra|split; [lia|split; [lra|]]].
  unfold two_stage_valuation.
  replace (py_range 1 (1 + 1)) with [1%Z] by reflexivity.
  cbn [stage1_loop]; rewrite (py_pow_int _ (1 - 1)) by lia; cbn [bind py_mul].
  replace (1 + -1) with 0 by lra.
  rewrite py_pow_half_zero by lia; cbn [bind].
  rewrite py_div_zero; reflexivity.
Qed.

(** ** C3 *)

(** C3 (as amended): for a valid input with [1 + discountRate > 0] the
    function returns, and its [pv_tv] is
    [fcf_last * (1 + g2) / (wacc - g2) / (1 + wacc) ^ (years1 - 0.5)] with
    [fcf_last = fcfs[-1] * (1 + g1)] and
    [fcfs[-1] = fcf1 * (1 + g1) ^ (years1 - 1)]. *)
Theorem terminal_value_pv (fcf1 g1 : R) (years1 : Z) (g2 wacc : R) :
  (1 <= years1)%Z -> g2 < wacc -> 0 < 1 + wacc ->
  exists ev fcfs pv_fcfs pv_tv,
    two_stage_valuation fcf1 g1 years1 g2 wacc = Ok (ev, fcfs, pv_fcfs, Re pv_tv) /\
    py_last fcfs = Ok (Re (fcf1 * (1 + g1) ^ Z.to_nat (years1 - 1))) /\
    let fcfAtStage1End := fcf1 * (1 + g1) ^ Z.to_nat (years1 - 1) * (1 + g1) in
    let terminalValue := fcfAtStage1End * (1 + g2) / (wacc - g2) in
    pv_tv = terminalValue / Rpower (1 + wacc) (IZR years1 - / 2).
Proof.
  intros Hy Hlt Hw.
  rewrite tsv_closed by (exact Hy || exact Hw || (intro; lra)).
  do 4 eexists; split; [reflexivity|].
  split; [apply last_fcf_of_range; exact Hy|].
  reflexivity.
Qed.

Lemma terminal_value_pv_witness :
  exists ev fcfs pv_fcfs pv_tv,
    two_stage_valuation 100 0 1 0 (15 / 100) = Ok (ev, fcfs, pv_fcfs, Re pv_tv) /\
    py_last fcfs = Ok (Re (100 * (1 + 0) ^ Z.to_nat (1 - 1))) /\
    let fcfAtStage1End := 100 * (1 + 0) ^ Z.to_nat (1 - 1) * (1 + 0) in
    let terminalValue := fcfAtStage1End * (1 + 0) / (15 / 100 - 0) in
    pv_tv = terminalValue / Rpower (1 + 15 / 100) (IZR 1 - / 2).
Proof.
  apply (terminal_value_pv 100 0 1 0 (15 / 100)); lia || lra.
Defined.

(** C3 is refuted at [discountRate = -2], [terminalGrowth = -3] (a valid
    input): the discount factor [(-1.0) ** 0.5] is a Python [complex], so
    the returned terminal value PV is complex, not the real
    [terminalValue / (1 + discountRate) ^ (stage1Years - 0.5)]. *)
Lemma terminal_value_complex_below_minus_one :
  (1 <= 1)%Z /\ -3 < -2 /\
  exists ev fcfs pv_fcfs,
    two_stage_valuation 1 0 1 (-3) (-2) = Ok (ev, fcfs, pv_fcfs, Cx).
Proof.
  split; [lia|split; [lra|]].
  unfold two_stage_valuation.
  replace (py_range 1 (1 + 1)) with [1%Z] by reflexivity.
  cbn [stage1_loop]; rewrite (py_pow_int _ (1 - 1)) by lia; cbn [bind py_mul].
  replace (1 + -2) with (-1) by lra.
  rewrite py_pow_half_neg by lra; cbn [bind py_div stage1_loop app].
  cbn [py_last rev app bind py_mul].
  destruct (Req_EM_T (-2 - -3) 0) as [H|_]; [lra|].
  cbn [bind]; do 3 eexists; reflexivity.
Qed.

(** ** C8 *)

(** C8: with [g1 > 0] and [fcf1 > 0], whenever [two_stage_valuation]
    returns, consecutive entries of [fcfs] are real and strictly
    increasing. *)
Theorem projected_fcf_increasing (fcf1 g1 : R) (years1 : Z) (g2 wacc : R) :
  0 < g1 -> 0 < fcf1 ->
  match two_stage_valuation fcf1 g1 years1 g2 wacc with
  | Ok (_, fcfs, _, _) =>
      forall i, (S i < length fcfs)%nat ->
        exists a b, nth i fcfs Cx = Re a /\ nth (S i) fcfs Cx = Re b /\ a < b
  | Err _ => True
  end.
Proof.
  intros Hg Hf.
  destruct (two_stage_valuation fcf1 g1 years1 g2 wacc)
    as [[[[ev fcfs] pvs] pv_tv]|e] eqn:E; [|exact I].
  apply tsv_fcfs in E; subst fcfs.
  intros i Hi; rewrite length_map_range in Hi.
  rewrite !nth_map_range by lia.
  do 2 eexists; split; [reflexivity|split; [reflexivity|]].
  unfold fcf_at.
  replace (Z.to_nat (1 + Z.of_nat i - 1)) with i by lia.
  replace (Z.to_nat (1 + Z.of_nat (S i) - 1)) with (S i) by lia.
  apply Rmult_lt_compat_l; [exact Hf|].
  apply Rlt_pow; [lra|lia].
Qed.

Lemma projected_fcf_increasing_witness :
  match two_stage_valuation 1000000 (/ 10) 5 (3 / 100) (15 / 100) with
  | Ok (_, fcfs, _, _) =>
      forall i, (S i < length fcfs)%nat ->
        exists a b, nth i fcfs Cx = Re a /\ nth (S i) fcfs Cx = Re b /\ a < b
  | Err _ => True
  end.
Proof.
  apply (projected_fcf_increasing 1000000 (/ 10) 5 (3 / 100) (15 / 100)); lra.
Defined.

(** ** The illustrative series *)

Lemma nth_map_seq {A : Type} (f : nat -> A) (m i : nat) (d : A) :
  (i < m)%nat -> nth i (map f (seq 0 m)) d = f i.
Proof.
  intro Hi.
  rewrite (nth_indep _ d (f 0%nat)) by (rewrite length_map, length_seq; exact Hi).
  rewrite map_nth, seq_nth by exact Hi; reflexivity.
Qed.

Lemma val_at_S (v g1_pct g2_pct : R) (years1 : Z) (k : nat) :
  val_at v g1_pct g2_pct years1 (S k) =
    val_at v g1_pct g2_pct years1 k *
      (1 + (if Z.leb (1 + Z.of_nat k) years1 then g1_pct / 100 else g2_pct / 100)).
Proof. cbn [val_at]; destruct (Z.leb _ _); reflexivity. Qed.

Lemma val_loop_closed (v g1_pct g2_pct : R) (years1 : Z) (m k : nat)
    (acc : list (Z * R)) :
  val_loop years1 g1_pct g2_pct (map (fun i => (1 + Z.of_nat i)%Z) (seq k m))
    (val_at v g1_pct g2_pct years1 k) acc =
  acc ++ map (fun i => ((1 + Z.of_nat i)%Z, val_at v g1_pct g2_pct years1 (S i)))
             (seq k m).
Proof.
  revert k acc; induction m as [|m IH]; intros k acc.
  - simpl; rewrite app_nil_r; reflexivity.
  - cbn [seq map val_loop].
    change (if Z.leb (1 + Z.of_nat k) years1
            then val_at v g1_pct g2_pct years1 k * (1 + g1_pct / 100)
            else val_at v g1_pct g2_pct years1 k * (1 + g2_pct / 100))
      with (val_at v g1_pct g2_pct years1 (S k)).
    rewrite IH, <- app_assoc; reflexivity.
Qed.

Lemma val_series_closed (v g1_pct : R) (years1 : Z) (g2_pct : R) :
  val_series v g1_pct years1 g2_pct =
    map (fun i => ((1 + Z.of_nat i)%Z, val_at v g1_pct g2_pct years1 (S i)))
        (seq 0 (Z.to_nat (years1 + 5))).
Proof.
  unfold val_series, py_range.
  replace (Z.to_nat (years1 + 6 - 1)) with (Z.to_nat (years1 + 5)) by (f_equal; lia).
  apply (val_loop_closed v g1_pct g2_pct years1 _ 0 []).
Qed.

Lemma val_at_nonneg (v g1_pct g2_pct : R) (years1 : Z) (k : nat) :
  0 <= v -> 0 <= g1_pct -> 0 <= g2_pct -> 0 <= val_at v g1_pct g2_pct years1 k.
Proof.
  intros Hv H1 H2; induction k as [|k IH]; [exact Hv|].
  rewrite val_at_S; apply Rmult_le_pos; [exact IH|].
  destruct (Z.leb _ _); lra.
Qed.

Lemma val_at_pos (v g1_pct g2_pct : R) (years1 : Z) (k : nat) :
  0 < v -> 0 < g1_pct -> 0 < g2_pct -> 0 < val_at v g1_pct g2_pct years1 k.
Proof.
  intros Hv H1 H2; induction k as [|k IH]; [exact Hv|].
  rewrite val_at_S; apply Rmult_lt_0_compat; [exact IH|].
  destruct (Z.leb _ _); lra.
Qed.

(** ** C6 *)

(** C6: [val_series] has [years1 + 5] entries; entry [n] is
    [(n, V(n))] with [V(n) = V(n-1) * (1 + g1_pct/100)] for [n <= years1],
    [V(n) = V(n-1) * (1 + g2_pct/100)] beyond, and [V(0)] the current
    valuation input (not a value computed by [two_stage_valuation]). *)
Theorem val_series_compounding (v g1_pct : R) (years1 : Z) (g2_pct : R) :
  (-5 <= years1)%Z ->
  Z.of_nat (length (val_series v g1_pct years1 g2_pct)) = (years1 + 5)%Z /\
  forall n, (1 <= n <= years1 + 5)%Z ->
    let prev :=
      if Z.eqb n 1 then v
      else snd (nth (Z.to_nat (n - 2)) (val_series v g1_pct years1 g2_pct) (0%Z, 0)) in
    nth (Z.to_nat (n - 1)) (val_series v g1_pct years1 g2_pct) (0%Z, 0) =
      (n, prev * (1 + (if Z.leb n years1 then g1_pct / 100 else g2_pct / 100))).
Proof.
  intro Hy; rewrite val_series_closed; split.
  - rewrite length_map, length_seq; lia.
  - intros n Hn; cbv zeta.
    rewrite nth_map_seq by lia.
    rewrite val_at_S.
    replace (1 + Z.of_nat (Z.to_nat (n - 1)))%Z with n by lia.
    destruct (Z.eqb_spec n 1) as [->|Hn1].
    + reflexivity.
    + rewrite nth_map_seq by lia; cbn [snd].
      replace (S (Z.to_nat (n - 2))) with (Z.to_nat (n - 1)) by lia.
      reflexivity.
Qed.

Lemma val_series_compounding_witness :
  Z.of_nat (length (val_series 10000000 10 5 3)) = (5 + 5)%Z /\
  forall n, (1 <= n <= 5 + 5)%Z ->
    let prev :=
      if Z.eqb n 1 then 10000000
      else snd (nth (Z.to_nat (n - 2)) (val_series 10000000 10 5 3) (0%Z, 0)) in
    nth (Z.to_nat (n - 1)) (val_series 10000000 10 5 3) (0%Z, 0) =
      (n, prev * (1 + (if Z.leb n 5 then 10 / 100 else 3 / 100))).
Proof.
  apply (val_series_compounding 10000000 10 5 3); lia.
Defined.

(** ** C7 *)

(** C7 (as amended): within the UI bounds ([valuation >= 0], growth rates
    [>= 0%]) the valuations of [val_series] are non-decreasing in the
    year, and strictly increasing when the valuation and both growth
    rates are positive. *)
Theorem val_series_monotone (v g1_pct : R) (years1 : Z) (g2_pct : R) :
  0 <= v -> 0 <= g1_pct -> 0 <= g2_pct ->
  (forall i, (S i < length (val_series v g1_pct years1 g2_pct))%nat ->
     snd (nth i (val_series v g1_pct years1 g2_pct) (0%Z, 0)) <=
     snd (nth (S i) (val_series v g1_pct years1 g2_pct) (0%Z, 0))) /\
  (0 < v -> 0 < g1_pct -> 0 < g2_pct ->
   forall i, (S i < length (val_series v g1_pct years1 g2_pct))%nat ->
     snd (nth i (val_series v g1_pct years1 g2_pct) (0%Z, 0)) <
     snd (nth (S i) (val_series v g1_pct years1 g2_pct) (0%Z, 0))).
Proof.
  intros Hv H1 H2; rewrite val_series_closed, length_map, length_seq.
  split.
  - intros i Hi; rewrite !nth_map_seq by lia; cbn [snd].
    rewrite (val_at_S v g1_pct g2_pct years1 (S i)).
    pose proof (val_at_nonneg v g1_pct g2_pct years1 (S i) Hv H1 H2).
    destruct (Z.leb _ _); nra.
  - intros Hv' H1' H2' i Hi; rewrite !nth_map_seq by lia; cbn [snd].
    rewrite (val_at_S v g1_pct g2_pct years1 (S i)).
    pose proof (val_at_pos v g1_pct g2_pct years1 (S i) Hv' H1' H2').
    destruct (Z.leb _ _); nra.
Qed.

Lemma val_series_monotone_witness :
  (forall i, (S i < length (val_series 10000000 10 5 3))%nat ->
     snd (nth i (val_series 10000000 10 5 3) (0%Z, 0)) <=
     snd (nth (S i) (val_series 10000000 10 5 3) (0%Z, 0))) /\
  (0 < 10000000 -> 0 < 10 -> 0 < 3 ->
   forall i, (S i < length (val_series 10000000 10 5 3))%nat ->
     snd (nth i (val_series 10000000 10 5 3) (0%Z, 0)) <
     snd (nth (S i) (val_series 10000000 10 5 3) (0%Z, 0))).
Proof.
  apply (val_series_monotone 10000000 10 5 3); lra.
Defined.

(** C7 is refuted: with the valuation at the UI default and the stage-1
    growth slider at its lower bound [0%], the first two valuations of the
    series are equal. *)
Lemma val_series_flat_at_zero_growth :
  0 <= 10000000 /\ 0 <= 0 /\ 0 <= 3 /\
  snd (nth 0 (val_series 10000000 0 5 3) (0%Z, 0)) =
  snd (nth 1 (val_series 10000000 0 5 3) (0%Z, 0)).
Proof.
  split; [lra|split; [lra|split; [lra|]]].
  rewrite val_series_closed, !nth_map_seq by (cbn; lia); cbn [snd].
  rewrite !val_at_S; cbn [val_at]; vm_compute Z.leb; lra.
Qed.

(** ** C9 *)

(** C9: the share value is [valuation * equity_pct / 100], and the balance
    due is [max(agreed_price - amount_paid, 0)], hence never negative. *)
Theorem share_and_balance (valuation_input equity_pct agreed_price amount_paid : R) :
  share_value valuation_input equity_pct = valuation_input * equity_pct / 100 /\
  balance_due agreed_price amount_paid = Rmax (agreed_price - amount_paid) 0 /\
  0 <= balance_due agreed_price amount_paid.
Proof.
  unfold share_value, balance_due, py_max, Rmax.
  split; [reflexivity|].
  destruct (Rlt_dec (agreed_price - amount_paid) 0);
    destruct (Rle_dec (agreed_price - amount_paid) 0); split; lra.
Qed.

(** * Further properties of the code *)

(** ** Helper lemmas *)

Lemma py_sum_map_Re (f : Z -> R) (ns : list Z) :
  py_sum (map (fun n => Re (f n)) ns) = Re (sum_over f ns).
Proof.
  unfold py_sum.
  assert (G : forall a, fold_left py_add (map (fun n => Re (f n)) ns) (Re a) =
                        Re (a + sum_over f ns)).
  { induction ns as [|n ns IH]; intro a; cbn [map fold_left sum_over fold_right].
    - f_equal; ring.
    - cbn [py_add]; rewrite IH; f_equal; unfold sum_over; ring. }
  rewrite G; f_equal; ring.
Qed.

Lemma tsv_closed_real (fcf1 g1 : R) (years1 : Z) (g2 wacc : R) :
  (1 <= years1)%Z -> 0 < 1 + wacc -> wacc <> g2 ->
  two_stage_valuation fcf1 g1 years1 g2 wacc =
    Ok (Re (sum_over (pv_at fcf1 g1 wacc) (py_range 1 (years1 + 1))
            + tv_pv_at fcf1 g1 g2 wacc years1),
        map (fun n => Re (fcf_at fcf1 g1 n)) (py_range 1 (years1 + 1)),
        map (fun n => Re (pv_at fcf1 g1 wacc n)) (py_range 1 (years1 + 1)),
        Re (tv_pv_at fcf1 g1 g2 wacc years1)).
Proof.
  intros Hy Hw Hne; rewrite tsv_closed by assumption.
  rewrite (py_sum_map_Re (pv_at fcf1 g1 wacc)); reflexivity.
Qed.

Lemma stage1_loop_length (fcf1 g1 wacc : R) (ns : list Z) (fcfs pvs fcfs' pvs' : list num) :
  stage1_loop fcf1 g1 wacc ns fcfs pvs = Ok (fcfs', pvs') ->
  length pvs' = (length pvs + length ns)%nat.
Proof.
  revert fcfs pvs; induction ns as [|n ns IH]; intros fcfs pvs H.
  - cbn in H; injection H as _ <-; simpl; lia.
  - cbn [stage1_loop] in H.
    destruct (py_pow (1 + g1) (IZR (n - 1))) as [p|e]; cbn [bind] in H; [|discriminate].
    destruct (py_pow (1 + wacc) (IZR n - / 2)) as [d|e]; cbn [bind] in H; [|discriminate].
    destruct (py_div _ d) as [pv|e]; cbn [bind] in H; [|discriminate].
    apply IH in H; rewrite length_app in H; simpl in *; lia.
Qed.

Lemma tsv_pvs_length (fcf1 g1 : R) (years1 : Z) (g2 wacc : R) ev fcfs pvs pv_tv :
  two_stage_valuation fcf1 g1 years1 g2 wacc = Ok (ev, fcfs, pvs, pv_tv) ->
  length pvs = Z.to_nat years1.
Proof.
  unfold two_stage_valuation.
  destruct (stage1_loop _ _ _ _ _ _) as [[f p]|e] eqn:L; cbn [bind]; [|discriminate].
  destruct (py_last f); cbn [bind]; [|discriminate].
  destruct (py_div _ _) as [tv|e]; cbn [bind]; [|discriminate].
  destruct (py_pow _ _) as [d|e]; cbn [bind]; [|discriminate].
  destruct (py_div tv d); cbn [bind]; [|discriminate].
  intro E; injection E; intros; subst.
  apply stage1_loop_length in L; rewrite L, py_range_length; simpl.
  f_equal; lia.
Qed.

(** With a negative base [1 + wacc] the loop returns complex present values. *)
Lemma stage1_loop_neg (fcf1 g1 wacc : R) (ns : list Z) (fcfs pvs : list num) :
  1 + wacc < 0 ->
  Forall (fun n => (1 <= n)%Z) ns ->
  stage1_loop fcf1 g1 wacc ns fcfs pvs =
    Ok (fcfs ++ map (fun n => Re (fcf_at fcf1 g1 n)) ns, pvs ++ map (fun _ => Cx) ns).
Proof.
  intro Hw; revert fcfs pvs; induction ns as [|n ns IH]; intros fcfs pvs Hns.
  - simpl; rewrite !app_nil_r; reflexivity.
  - inversion Hns as [|? ? Hn Hns']; subst.
    cbn [stage1_loop]; rewrite py_pow_int by lia; cbn [bind py_mul].
    rewrite py_pow_half_neg by exact Hw; cbn [bind py_div].
    rewrite IH by exact Hns'; rewrite <- !app_assoc; reflexivity.
Qed.

Lemma tsv_ok_neg (fcf1 g1 : R) (years1 : Z) (g2 wacc : R) :
  (1 <= years1)%Z -> 1 + wacc < 0 -> wacc <> g2 ->
  exists r, two_stage_valuation fcf1 g1 years1 g2 wacc = Ok r.
Proof.
  intros Hy Hw Hne; unfold two_stage_valuation.
  rewrite stage1_loop_neg by (exact Hw || apply py_range_ge); cbn [bind app].
  rewrite last_fcf_of_range by exact Hy; cbn [bind py_mul].
  rewrite py_div_nonzero by (intro H; apply Hne; lra); cbn [bind].
  rewrite py_pow_half_neg by exact Hw; cbn [bind py_div].
  eexists; reflexivity.
Qed.

Lemma py_range_head (k : Z) :
  (1 <= k)%Z -> exists rest, py_range 1 (k + 1) = (1%Z :: rest).
Proof.
  intro Hk; unfold py_range.
  replace (Z.to_nat (k + 1 - 1)) with (S (Z.to_nat (k - 1))) by lia.
  eexists; reflexivity.
Qed.

(** [1 + wacc == 0]: the first discount factor is [0.0]. *)
Lemma tsv_wacc_minus_one (fcf1 g1 : R) (years1 : Z) (g2 : R) :
  (1 <= years1)%Z -> two_stage_valuation fcf1 g1 years1 g2 (-1) = Err ZeroDivisionError.
Proof.
  intro Hy; unfold two_stage_valuation.
  destruct (py_range_head years1 Hy) as [rest ->].
  cbn [stage1_loop]; rewrite (py_pow_int _ (1 - 1)) by lia; cbn [bind py_mul].
  replace (1 + -1) with 0 by lra.
  rewrite py_pow_half_zero by lia; cbn [bind].
  rewrite py_div_zero; reflexivity.
Qed.

Lemma last_map_range {A : Type} (f : Z -> A) (years1 : Z) :
  (1 <= years1)%Z -> py_last (map f (py_range 1 (years1 + 1))) = Ok (f years1).
Proof.
  intro Hy; rewrite py_range_snoc, map_app by exact Hy.
  apply py_last_snoc.
Qed.

(** ** Errors of the engine *)

(** For [years1 >= 1], [two_stage_valuation] raises exactly when
    [wacc == g2] or [wacc == -1], and what it raises is always
    [ZeroDivisionError]. *)
Theorem tsv_raises_iff (fcf1 g1 : R) (years1 : Z) (g2 wacc : R) :
  (1 <= years1)%Z ->
  ((exists e, two_stage_valuation fcf1 g1 years1 g2 wacc = Err e) <->
   (wacc = g2 \/ wacc = -1)) /\
  (forall e, two_stage_valuation fcf1 g1 years1 g2 wacc = Err e -> e = ZeroDivisionError).
Proof.
  intro Hy; split; [split|].
  - intros [e He].
    destruct (Req_EM_T wacc g2) as [|Hne]; [left; assumption|].
    destruct (Req_EM_T wacc (-1)) as [|Hm]; [right; assumption|].
    exfalso; destruct (Rtotal_order (1 + wacc) 0) as [Hn|[H0|Hp]].
    + destruct (tsv_ok_neg fcf1 g1 years1 g2 wacc Hy Hn Hne) as [r Hr]; congruence.
    + apply Hm; lra.
    + rewrite tsv_closed in He by assumption; discriminate.
  - intros [Heq|Hm].
    + exists ZeroDivisionError; apply tsv_zero_division; assumption.
    + subst; exists ZeroDivisionError; apply tsv_wacc_minus_one; exact Hy.
  - intros [|] He; [reflexivity|].
    exfalso; exact (tsv_no_index_error fcf1 g1 years1 g2 wacc Hy He).
Qed.

Lemma tsv_raises_iff_witness :
  ((exists e, two_stage_valuation 1 0 1 0 (-1) = Err e) <-> (-1 = 0 \/ -1 = -1)) /\
  (forall e, two_stage_valuation 1 0 1 0 (-1) = Err e -> e = ZeroDivisionError).
Proof. apply (tsv_raises_iff 1 0 1 0 (-1)); lia. Defined.

(** ** The app's call under the widget bounds *)

(** Within the widget bounds the call of lines 95-101 raises
    [ZeroDivisionError] exactly when the WACC slider equals the perpetual
    growth slider; otherwise it returns real values only, with
    [years1] cash flows and present values. *)
Theorem app_valuation_in_bounds (fcf1 g1_pct : R) (years1 : Z) (g2_pct wacc_pct : R) :
  ui_bounds fcf1 g1_pct years1 g2_pct wacc_pct ->
  (wacc_pct = g2_pct ->
   app_valuation fcf1 g1_pct years1 g2_pct wacc_pct = Err ZeroDivisionError) /\
  (wacc_pct <> g2_pct ->
   exists ev fcfs pvs pv_tv,
     app_valuation fcf1 g1_pct years1 g2_pct wacc_pct =
       Ok (Re ev, map Re fcfs, map Re pvs, Re pv_tv) /\
     length fcfs = Z.to_nat years1 /\ length pvs = Z.to_nat years1).
Proof.
  unfold ui_bounds, app_valuation; intros (Hf & Hg1 & Hy & Hg2 & Hw).
  split.
  - intros ->; apply tsv_zero_division; [lia | reflexivity].
  - intro Hne.
    rewrite tsv_closed_real; [| lia | lra | intro; apply Hne; lra].
    set (ns := py_range 1 (years1 + 1)).
    exists (sum_over (pv_at fcf1 (g1_pct / 100) (wacc_pct / 100)) ns
            + tv_pv_at fcf1 (g1_pct / 100) (g2_pct / 100) (wacc_pct / 100) years1),
           (map (fcf_at fcf1 (g1_pct / 100)) ns),
           (map (pv_at fcf1 (g1_pct / 100) (wacc_pct / 100)) ns),
           (tv_pv_at fcf1 (g1_pct / 100) (g2_pct / 100) (wacc_pct / 100) years1).
    split.
    + rewrite !map_map; reflexivity.
    + unfold ns; rewrite !length_map, py_range_length; split; f_equal; lia.
Qed.

Lemma app_valuation_in_bounds_witness :
  (15 = 3 -> app_valuation 1000000 10 5 3 15 = Err ZeroDivisionError) /\
  (15 <> 3 ->
   exists ev fcfs pvs pv_tv,
     app_valuation 1000000 10 5 3 15 = Ok (Re ev, map Re fcfs, map Re pvs, Re pv_tv) /\
     length fcfs = Z.to_nat 5 /\ length pvs = Z.to_nat 5).
Proof.
  apply (app_valuation_in_bounds 1000000 10 5 3 15).
  unfold ui_bounds; repeat split; lra || lia.
Defined.

Lemma sum_over_ext (f g : Z -> R) (ns : list Z) :
  (forall n, f n = g n) -> sum_over f ns = sum_over g ns.
Proof.
  intro H; induction ns as [|n ns IH]; [reflexivity|].
  unfold sum_over in *; cbn [fold_right]; rewrite H, IH; reflexivity.
Qed.

Lemma sum_over_scale (c : R) (f : Z -> R) (ns : list Z) :
  sum_over (fun n => c * f n) ns = c * sum_over f ns.
Proof.
  induction ns as [|n ns IH]; unfold sum_over in *; cbn [fold_right];
    [ring | rewrite IH; ring].
Qed.

Lemma sum_over_pos (f : Z -> R) (ns : list Z) :
  (forall n, In n ns -> 0 < f n) -> ns <> [] -> 0 < sum_over f ns.
Proof.
  induction ns as [|n ns IH]; intros Hf Hne; [contradiction|].
  unfold sum_over; cbn [fold_right]; fold (sum_over f ns).
  destruct ns as [|m ms].
  - unfold sum_over; cbn [fold_right]; rewrite Rplus_0_r; apply Hf; left; reflexivity.
  - apply Rplus_lt_0_compat; [apply Hf; left; reflexivity|].
    apply IH; [intros k Hk; apply Hf; right; exact Hk | discriminate].
Qed.

Lemma Rpower_ge_1 (x y : R) : 1 <= x -> 0 <= y -> 1 <= Rpower x y.
Proof.
  intros Hx Hy; rewrite <- (Rpower_O x) by lra.
  apply Rle_Rpower; assumption.
Qed.

(** ** The present values *)

(** With [1 + wacc > 0], consecutive present values differ by the factor
    [(1 + g1) / (1 + wacc)]: [pv_fcfs[i+1] = pv_fcfs[i] * (1 + g1) / (1 + wacc)]. *)
Theorem pv_ratio (fcf1 g1 : R) (years1 : Z) (g2 wacc : R) :
  (1 <= years1)%Z -> 0 < 1 + wacc -> wacc <> g2 ->
  exists ev fcfs pvs pv_tv,
    two_stage_valuation fcf1 g1 years1 g2 wacc = Ok (ev, fcfs, pvs, pv_tv) /\
    forall i, (S i < length pvs)%nat ->
      exists a b, nth i pvs Cx = Re a /\ nth (S i) pvs Cx = Re b /\
                  b = a * (1 + g1) / (1 + wacc).
Proof.
  intros Hy Hw Hne; rewrite tsv_closed by assumption.
  do 4 eexists; split; [reflexivity|].
  intros i Hi; rewrite length_map_range in Hi.
  rewrite !nth_map_range by lia.
  do 2 eexists; split; [reflexivity|split; [reflexivity|]].
  unfold pv_at, fcf_at.
  replace (Z.to_nat (1 + Z.of_nat i - 1)) with i by lia.
  replace (Z.to_nat (1 + Z.of_nat (S i) - 1)) with (S i) by lia.
  replace (IZR (1 + Z.of_nat (S i)) - / 2)
    with ((IZR (1 + Z.of_nat i) - / 2) + 1)
    by (rewrite Nat2Z.inj_succ, <- Z.add_1_r, !plus_IZR; ring).
  rewrite Rpower_plus, Rpower_1 by exact Hw.
  pose proof (Rpower_pos (1 + wacc) (IZR (1 + Z.of_nat i) - / 2)).
  cbn [pow]; field; lra.
Qed.

Lemma pv_ratio_witness :
  exists ev fcfs pvs pv_tv,
    two_stage_valuation 1 (/ 10) 5 (3 / 100) (15 / 100) = Ok (ev, fcfs, pvs, pv_tv) /\
    forall i, (S i < length pvs)%nat ->
      exists a b, nth i pvs Cx = Re a /\ nth (S i) pvs Cx = Re b /\
                  b = a * (1 + / 10) / (1 + 15 / 100).
Proof. apply (pv_ratio 1 (/ 10) 5 (3 / 100) (15 / 100)); [lia | lra | lra]. Defined.

(** With [wacc >= 0], [fcf1 >= 0] and [g1 >= -1], discounting never
    increases a cash flow: [0 <= pv_fcfs[i] <= fcfs[i]]. *)
Theorem pv_between_zero_and_fcf (fcf1 g1 : R) (years1 : Z) (g2 wacc : R) :
  (1 <= years1)%Z -> 0 <= wacc -> wacc <> g2 -> 0 <= fcf1 -> -1 <= g1 ->
  exists ev fcfs pvs pv_tv,
    two_stage_valuation fcf1 g1 years1 g2 wacc = Ok (ev, fcfs, pvs, pv_tv) /\
    forall i, (i < length pvs)%nat ->
      exists f p, nth i fcfs Cx = Re f /\ nth i pvs Cx = Re p /\ 0 <= p <= f.
Proof.
  intros Hy Hw Hne Hf Hg; rewrite tsv_closed by (assumption || lra).
  do 4 eexists; split; [reflexivity|].
  intros i Hi; rewrite length_map_range in Hi.
  rewrite !nth_map_range by lia.
  do 2 eexists; split; [reflexivity|split; [reflexivity|]].
  unfold pv_at.
  set (f := fcf_at fcf1 g1 (1 + Z.of_nat i)).
  set (D := Rpower (1 + wacc) (IZR (1 + Z.of_nat i) - / 2)).
  assert (HD : 1 <= D).
  { apply Rpower_ge_1; [lra|].
    rewrite plus_IZR; pose proof (pos_INR i) as Hi'; rewrite INR_IZR_INZ in Hi'; lra. }
  assert (Hf0 : 0 <= f) by (unfold f, fcf_at; apply Rmult_le_pos; [exact Hf | apply pow_le; lra]).
  assert (Hq : 0 <= f / D)
    by (unfold Rdiv; apply Rmult_le_pos; [exact Hf0 | left; apply Rinv_0_lt_compat; lra]).
  assert (Hqd : f / D * D = f) by (field; lra).
  split; [exact Hq | nra].
Qed.

Lemma pv_between_zero_and_fcf_witness :
  exists ev fcfs pvs pv_tv,
    two_stage_valuation 1000000 (/ 10) 5 (3 / 100) (15 / 100) = Ok (ev, fcfs, pvs, pv_tv) /\
    forall i, (i < length pvs)%nat ->
      exists f p, nth i fcfs Cx = Re f /\ nth i pvs Cx = Re p /\ 0 <= p <= f.
Proof. apply (pv_between_zero_and_fcf 1000000 (/ 10) 5 (3 / 100) (15 / 100)); lia || lra. Defined.

(** ** The terminal value *)

(** With [1 + wacc > 0], the discounted terminal value is the last present
    value times the Gordon multiple [(1 + g1) * (1 + g2) / (wacc - g2)]. *)
Theorem terminal_pv_multiple_of_last_pv (fcf1 g1 : R) (years1 : Z) (g2 wacc : R) :
  (1 <= years1)%Z -> 0 < 1 + wacc -> wacc <> g2 ->
  exists ev fcfs pvs pv_tv p,
    two_stage_valuation fcf1 g1 years1 g2 wacc = Ok (ev, fcfs, pvs, Re pv_tv) /\
    py_last pvs = Ok (Re p) /\
    pv_tv = p * (1 + g1) * (1 + g2) / (wacc - g2).
Proof.
  intros Hy Hw Hne; rewrite tsv_closed by assumption.
  do 5 eexists; split; [reflexivity|].
  split; [apply (last_map_range (fun n => Re (pv_at fcf1 g1 wacc n))); exact Hy|].
  unfold pv_at.
  pose proof (Rpower_pos (1 + wacc) (IZR years1 - / 2)).
  field; split; [intro; apply Hne; lra | lra].
Qed.

Lemma terminal_pv_multiple_of_last_pv_witness :
  exists ev fcfs pvs pv_tv p,
    two_stage_valuation 1 (/ 10) 5 (3 / 100) (15 / 100) = Ok (ev, fcfs, pvs, Re pv_tv) /\
    py_last pvs = Ok (Re p) /\
    pv_tv = p * (1 + / 10) * (1 + 3 / 100) / (15 / 100 - 3 / 100).
Proof. apply (terminal_pv_multiple_of_last_pv 1 (/ 10) 5 (3 / 100) (15 / 100)); lia || lra. Defined.

(** ** How the valuation depends on the cash flow *)

(** With [1 + wacc > 0], scaling [fcf1] by [c] scales the enterprise value
    and the discounted terminal value by [c]. *)
Theorem valuation_scales_with_fcf (c fcf1 g1 : R) (years1 : Z) (g2 wacc : R) :
  (1 <= years1)%Z -> 0 < 1 + wacc -> wacc <> g2 ->
  exists ev pv_tv fcfs pvs fcfs' pvs',
    two_stage_valuation fcf1 g1 years1 g2 wacc = Ok (Re ev, fcfs, pvs, Re pv_tv) /\
    two_stage_valuation (c * fcf1) g1 years1 g2 wacc =
      Ok (Re (c * ev), fcfs', pvs', Re (c * pv_tv)).
Proof.
  intros Hy Hw Hne.
  rewrite !tsv_closed_real by assumption.
  pose proof (fun n => Rpower_pos (1 + wacc) (IZR n - / 2)) as HP.
  rewrite (sum_over_ext (pv_at (c * fcf1) g1 wacc) (fun n => c * pv_at fcf1 g1 wacc n))
    by (intro n; unfold pv_at, fcf_at; specialize (HP n); field; lra).
  rewrite sum_over_scale.
  replace (tv_pv_at (c * fcf1) g1 g2 wacc years1) with (c * tv_pv_at fcf1 g1 g2 wacc years1)
    by (unfold tv_pv_at, fcf_at; specialize (HP years1); field; split; [lra | intro; apply Hne; lra]).
  do 6 eexists; split; [reflexivity|].
  rewrite Rmult_plus_distr_l; reflexivity.
Qed.

Lemma valuation_scales_with_fcf_witness :
  exists ev pv_tv fcfs pvs fcfs' pvs',
    two_stage_valuation 1 (/ 10) 5 (3 / 100) (15 / 100) = Ok (Re ev, fcfs, pvs, Re pv_tv) /\
    two_stage_valuation (1000000 * 1) (/ 10) 5 (3 / 100) (15 / 100) =
      Ok (Re (1000000 * ev), fcfs', pvs', Re (1000000 * pv_tv)).
Proof. apply (valuation_scales_with_fcf 1000000 1 (/ 10) 5 (3 / 100) (15 / 100)); lia || lra. Defined.

(** With [fcf1 > 0], growth rates above [-100%] and [wacc > g2], the
    discounted terminal value is positive and the enterprise value exceeds
    it (the stage-1 present values add a positive amount). *)
Theorem ev_positive (fcf1 g1 : R) (years1 : Z) (g2 wacc : R) :
  (1 <= years1)%Z -> g2 < wacc -> -1 < g1 -> -1 < g2 -> 0 < fcf1 ->
  exists ev fcfs pvs pv_tv,
    two_stage_valuation fcf1 g1 years1 g2 wacc = Ok (Re ev, fcfs, pvs, Re pv_tv) /\
    0 < pv_tv < ev.
Proof.
  intros Hy Hlt Hg1 Hg2 Hf.
  rewrite tsv_closed_real by (assumption || lra || (intro; lra)).
  do 4 eexists; split; [reflexivity|].
  assert (Hfcf : forall n, 0 < fcf_at fcf1 g1 n)
    by (intro n; unfold fcf_at; apply Rmult_lt_0_compat; [exact Hf | apply pow_lt; lra]).
  assert (Htv : 0 < tv_pv_at fcf1 g1 g2 wacc years1).
  { unfold tv_pv_at; apply Rdiv_lt_0_compat; [|apply Rpower_pos].
    apply Rdiv_lt_0_compat; [|lra].
    specialize (Hfcf years1).
    apply Rmult_lt_0_compat; [apply Rmult_lt_0_compat|]; lra. }
  assert (Hsum : 0 < sum_over (pv_at fcf1 g1 wacc) (py_range 1 (years1 + 1))).
  { apply sum_over_pos.
    - intros n _; unfold pv_at; apply Rdiv_lt_0_compat; [apply Hfcf | apply Rpower_pos].
    - destruct (py_range_head years1 Hy) as [rest ->]; discriminate. }
  lra.
Qed.

Lemma ev_positive_witness :
  exists ev fcfs pvs pv_tv,
    two_stage_valuation 1000000 (/ 10) 5 (3 / 100) (15 / 100) = Ok (Re ev, fcfs, pvs, Re pv_tv) /\
    0 < pv_tv < ev.
Proof. apply (ev_positive 1000000 (/ 10) 5 (3 / 100) (15 / 100)); lia || lra. Defined.

(** ** The projection table *)

Lemma map_fst_combine {A B : Type} (l1 : list A) (l2 : list B) :
  length l1 = length l2 -> map fst (combine l1 l2) = l1.
Proof.
  revert l2; induction l1 as [|x l1 IH]; intros [|y l2] H; try discriminate; [reflexivity|].
  cbn; f_equal; apply IH; injection H; auto.
Qed.

Lemma map_snd_combine {A B : Type} (l1 : list A) (l2 : list B) :
  length l1 = length l2 -> map snd (combine l1 l2) = l2.
Proof.
  revert l2; induction l1 as [|x l1 IH]; intros [|y l2] H; try discriminate; [reflexivity|].
  cbn; f_equal; apply IH; injection H; auto.
Qed.

(** Whenever [two_stage_valuation] returns, the table of lines 108-112 is
    built without a pandas length error: it has [years1] rows, labelled
    [t+1 .. t+years1] in order, pairing each cash flow with its present
    value. *)
Theorem projection_table_built (fcf1 g1 : R) (years1 : Z) (g2 wacc : R) :
  match two_stage_valuation fcf1 g1 years1 g2 wacc with
  | Ok (_, fcfs, pvs, _) =>
      exists rows, projection_df years1 fcfs pvs = Some rows /\
        length rows = Z.to_nat years1 /\
        map (fun r => fst (fst r)) rows = py_range 1 (years1 + 1) /\
        map (fun r => snd (fst r)) rows = fcfs /\
        map snd rows = pvs
  | Err _ => True
  end.
Proof.
  destruct (two_stage_valuation fcf1 g1 years1 g2 wacc)
    as [[[[ev fcfs] pvs] pv_tv]|e] eqn:E; [|exact I].
  pose proof (tsv_pvs_length _ _ _ _ _ _ _ _ _ E) as Hp.
  apply tsv_fcfs in E.
  assert (Hf : length fcfs = Z.to_nat years1) by (rewrite E; apply length_map_range).
  assert (Ha : length (py_range 1 (years1 + 1)) = Z.to_nat years1)
    by (rewrite py_range_length; f_equal; lia).
  unfold projection_df; cbv zeta.
  rewrite Ha, Hf, Hp, Nat.eqb_refl; cbn [andb].
  eexists; split; [reflexivity|].
  assert (Hc : length (combine (py_range 1 (years1 + 1)) fcfs) = Z.to_nat years1)
    by (rewrite length_combine, Ha, Hf; lia).
  split; [rewrite length_combine, Hc, Hp; lia|].
  split; [|split].
  - rewrite <- map_map, map_fst_combine by (rewrite Hc, Hp; reflexivity).
    apply map_fst_combine; rewrite Ha, Hf; reflexivity.
  - rewrite <- (map_map fst snd), map_fst_combine by (rewrite Hc, Hp; reflexivity).
    apply map_snd_combine; rewrite Ha, Hf; reflexivity.
  - apply map_snd_combine; rewrite Hc, Hp; reflexivity.
Qed.

(** ** The illustrative series in closed form *)

Lemma val_at_closed (v g1_pct g2_pct : R) (years1 : Z) (k : nat) :
  (0 <= years1)%Z ->
  val_at v g1_pct g2_pct years1 k =
    v * (1 + g1_pct / 100) ^ Nat.min k (Z.to_nat years1)
      * (1 + g2_pct / 100) ^ (k - Z.to_nat years1).
Proof.
  intro Hy; induction k as [|k IH].
  - cbn [val_at]; rewrite Nat.min_0_l, Nat.sub_0_l; cbn [pow]; ring.
  - rewrite val_at_S, IH.
    destruct (Z.leb_spec (1 + Z.of_nat k) years1) as [Hk|Hk].
    + replace (Nat.min (S k) (Z.to_nat years1)) with (S (Nat.min k (Z.to_nat years1))) by lia.
      replace (S k - Z.to_nat years1)%nat with (k - Z.to_nat years1)%nat by lia.
      cbn [pow]; ring.
    + replace (Nat.min (S k) (Z.to_nat years1)) with (Nat.min k (Z.to_nat years1)) by lia.
      replace (S k - Z.to_nat years1)%nat with (S (k - Z.to_nat years1)) by lia.
      cbn [pow]; ring.
Qed.

(** For [years1 >= 0], the entry of year [n] of the series is
    [valuation_input * (1 + g1_pct/100) ^ min(n, years1) * (1 + g2_pct/100) ^ max(n - years1, 0)];
    its last entry (year [years1 + 5]) is
    [valuation_input * (1 + g1_pct/100) ^ years1 * (1 + g2_pct/100) ^ 5]. *)
Theorem val_series_closed_form (v g1_pct : R) (years1 : Z) (g2_pct : R) :
  (0 <= years1)%Z ->
  (forall i, (i < length (val_series v g1_pct years1 g2_pct))%nat ->
     nth i (val_series v g1_pct years1 g2_pct) (0%Z, 0) =
       ((1 + Z.of_nat i)%Z,
        v * (1 + g1_pct / 100) ^ Nat.min (S i) (Z.to_nat years1)
          * (1 + g2_pct / 100) ^ (S i - Z.to_nat years1))) /\
  py_last (val_series v g1_pct years1 g2_pct) =
    Ok ((years1 + 5)%Z, v * (1 + g1_pct / 100) ^ Z.to_nat years1 * (1 + g2_pct / 100) ^ 5).
Proof.
  intro Hy; rewrite val_series_closed; split.
  - intros i Hi; rewrite length_map, length_seq in Hi.
    rewrite nth_map_seq by exact Hi; rewrite val_at_closed by exact Hy; reflexivity.
  - replace (Z.to_nat (years1 + 5)) with (S (Z.to_nat (years1 + 4))) by lia.
    rewrite seq_S, map_app; cbn [map]; rewrite py_last_snoc.
    rewrite val_at_closed by exact Hy.
    replace (Nat.min (S (0 + Z.to_nat (years1 + 4))) (Z.to_nat years1)) with (Z.to_nat years1) by lia.
    replace (S (0 + Z.to_nat (years1 + 4)) - Z.to_nat years1)%nat with 5%nat by lia.
    do 2 f_equal; lia.
Qed.

Lemma val_series_closed_form_witness :
  (forall i, (i < length (val_series 10000000 10 5 3))%nat ->
     nth i (val_series 10000000 10 5 3) (0%Z, 0) =
       ((1 + Z.of_nat i)%Z,
        10000000 * (1 + 10 / 100) ^ Nat.min (S i) (Z.to_nat 5)
          * (1 + 3 / 100) ^ (S i - Z.to_nat 5))) /\
  py_last (val_series 10000000 10 5 3) =
    Ok ((5 + 5)%Z, 10000000 * (1 + 10 / 100) ^ Z.to_nat 5 * (1 + 3 / 100) ^ 5).
Proof. apply (val_series_closed_form 10000000 10 5 3); lia. Defined.

(** ** The chart *)

(** Building [chart_df] (line 129) raises [KeyError] exactly when
    [years1 <= -5] (the series is then empty); whenever it is built it is
    non-empty, so the [if not chart_df.empty] test of line 131 always
    passes. *)
Theorem chart_df_guard (v g1_pct : R) (years1 : Z) (g2_pct : R) :
  (chart_df (val_series v g1_pct years1 g2_pct) = None <-> (years1 <= -5)%Z) /\
  (forall df, chart_df (val_series v g1_pct years1 g2_pct) = Some df ->
     df_empty df = false).
Proof.
  rewrite val_series_closed; split.
  - destruct (Z.to_nat (years1 + 5)) as [|m] eqn:Hm; cbn; split; intro H;
      try reflexivity; try discriminate; lia.
  - intros df; destruct (Z.to_nat (years1 + 5)) as [|m]; cbn; [discriminate|].
    intro H; injection H as <-; reflexivity.
Qed.

(** ** Sidebar arithmetic *)

(** For a valuation [>= 0] and a participation in [0, 100] %, the share
    value lies between [0] and the valuation. *)
Theorem share_value_bounds (valuation_input equity_pct : R) :
  0 <= valuation_input -> 0 <= equity_pct <= 100 ->
  0 <= share_value valuation_input equity_pct <= valuation_input.
Proof. intros Hv He; unfold share_value; split; nra. Qed.

Lemma share_value_bounds_witness :
  0 <= share_value 10000000 1 <= 10000000.
Proof. apply share_value_bounds; lra. Defined.

(** For [amount_paid >= 0], the balance due never exceeds the agreed price
    when that is [>= 0], and it is [0] exactly when the amount paid reaches
    the agreed price. *)
Theorem balance_due_bounds (agreed_price amount_paid : R) :
  0 <= amount_paid -> 0 <= agreed_price ->
  balance_due agreed_price amount_paid <= agreed_price /\
  (balance_due agreed_price amount_paid = 0 <-> agreed_price <= amount_paid).
Proof.
  intros Hp Ha; unfold balance_due, py_max.
  destruct (Rlt_dec (agreed_price - amount_paid) 0); split; try lra; split; lra.
Qed.

Lemma balance_due_bounds_witness :
  balance_due 100000 0 <= 100000 /\ (balance_due 100000 0 = 0 <-> 100000 <= 0).
Proof. apply balance_due_bounds; lra. Defined.
